(** * half_orm_dev/hop.py: the [hop] command line

    The module builds one [Hop] object from the [Repo] found in the working
    directory, lets it decide which subcommands exist, registers those on the
    click group [main], and leaves the dispatch to click.

    The embedding follows the module top to bottom:
    - [Repo]: the collaborator [half_orm_dev.repo.Repo], seen through the four
      attributes and eight methods that hop.py uses;
    - [HopClass], [Hop]: the class object with its class-level attributes and
      an instance with its own attributes;
    - [py]: a state-and-exception monad over the process (class object,
      module globals, standard output, the calls made on the repo);
    - the eight click callbacks, [add_commands], [main] and the dispatch of
      the click group. *)

From Stdlib Require Import Ascii String.
From stdpp Require Import base gmap sets list strings.

Local Open Scope string_scope.
Local Open Scope Z_scope.

(** ** The repo, as hop.py sees it *)

Module Repo.

(** [click.Choice(['patch', 'minor', 'major'])] *)
Inductive Level := patch | minor | major.

(** A method call made by hop.py, with its arguments. *)
Inductive call :=
| init (package_name : string) (devel : bool)
| prepare_release (level : option Level) (message : option string)
| apply_release
| undo_release (database_only : bool)
| upgrade_prod
| restore (release : string)
| commit_release (push : bool)
| sync_package.

(** hop.py never looks at what a method returns: a call either comes back
    or raises an error. A method that asks for the end of the process by
    itself is not described here. *)
Inductive outcome := Returned | Raised (error : string).

Record t := {
  checked : bool;
  devel : bool;
  production : bool;
  state : string;
  run : call -> outcome
}.

End Repo.

(** ** Exceptions and results *)

Inductive exn :=
| SystemExit (code : option Z)      (* sys.exit(), sys.exit(n) *)
| UsageError (message : string)     (* click.exceptions.UsageError *)
| KeyError (key : string)
| Error (error : string).           (* an error raised by a Repo method *)

Inductive result (A : Type) :=
| Ret (a : A)
| Raise (e : exn).
Arguments Ret {A} a.
Arguments Raise {A} e.

(** ** The class object and its instances *)

(** Class-level attributes of [Hop]; one object for the whole process. *)
Record HopClass := {
  available_cmds : list string;       (* Hop.__available_cmds *)
  class_command : option string       (* Hop.__command *)
}.

(** The class body: [__available_cmds = []], [__command = None]. *)
Definition Hop_class_body : HopClass :=
  {| available_cmds := []; class_command := None |}.

(** An instance: [self.__repo], and [self.__command] once a callback has
    assigned it ([None] while the instance has no such attribute). *)
Record Hop := {
  repo : Repo.t;
  instance_command : option string
}.

Definition set_available_cmds (l : list string) (K : HopClass) : HopClass :=
  {| available_cmds := l; class_command := class_command K |}.

Definition set_command (c : string) (self : Hop) : Hop :=
  {| repo := repo self; instance_command := Some c |}.

(** [Hop.repo_checked] *)
Definition repo_checked (self : Hop) : bool := Repo.checked (repo self).

(** [Hop.state] *)
Definition state (self : Hop) : string := Repo.state (repo self).

(** [Hop.command]: attribute lookup goes to the instance first, then to the
    class. *)
Definition command (self : Hop) (K : HopClass) : option string :=
  match instance_command self with
  | Some c => Some c
  | None => class_command K
  end.

(** [Hop.__init__]; [r] is the result of [Repo()]. Every branch assigns the
    attribute of the class, not of the instance. *)
Definition Hop__init__ (r : Repo.t) (K : HopClass) : Hop * HopClass :=
  let self := {| repo := r; instance_command := None |} in
  if negb (repo_checked self) then
    (self, set_available_cmds ["new"] K)
  else if negb (Repo.devel (repo self)) then
    (self, set_available_cmds ["sync-package"] K)
  else if Repo.production (repo self) then
    (self, set_available_cmds ["upgrade"; "restore"] K)
  else
    (self, set_available_cmds ["prepare"; "apply"; "release"; "undo"] K).

(** ** The process and its monad *)

(** What click hands to a callback; each callback reads its own parameters. *)
Record kwargs := {
  package_name : string;
  devel : bool;
  level : option Repo.Level;
  message : option string;
  database_only : bool;
  release_arg : string;
  push : bool
}.

(** The process: the class object, the module global [hop], standard output
    and the calls made on the repo so far. *)
Record Process := {
  Hop_class : HopClass;
  hop : Hop;
  stdout : list string;
  repo_calls : list Repo.call
}.

Definition py (A : Type) : Type := Process -> result A * Process.

Definition ret {A} (a : A) : py A := fun p => (Ret a, p).

Definition bind {A B} (m : py A) (k : A -> py B) : py B :=
  fun p =>
    match m p with
    | (Ret a, p') => k a p'
    | (Raise e, p') => (Raise e, p')
    end.

Definition raise {A} (e : exn) : py A := fun p => (Raise e, p).

Declare Scope py_scope.
Delimit Scope py_scope with py.
Notation "m ;; k" := (bind m (fun _ => k))
  (at level 100, k at level 200, right associativity) : py_scope.
Local Open Scope py_scope.

(** [self.__command = c] inside a callback; [self] is the global [hop]. *)
Definition assign_command (c : string) : py unit :=
  fun p =>
    (Ret tt,
     {| Hop_class := Hop_class p; hop := set_command c (hop p);
        stdout := stdout p; repo_calls := repo_calls p |}).

(** [self.__repo.<method>(...)]: the call is made, then returns or raises. *)
Definition repo_call (c : Repo.call) : py unit :=
  fun p =>
    let p' := {| Hop_class := Hop_class p; hop := hop p;
                 stdout := stdout p; repo_calls := repo_calls p ++ [c] |} in
    match Repo.run (repo (hop p)) c with
    | Repo.Returned => (Ret tt, p')
    | Repo.Raised e => (Raise (Error e), p')
    end.

(** [click.echo(s)] and [print(s)] *)
Definition echo (s : string) : py unit :=
  fun p =>
    (Ret tt,
     {| Hop_class := Hop_class p; hop := hop p;
        stdout := stdout p ++ [s]; repo_calls := repo_calls p |}).

(** [sys.exit()] *)
Definition sys_exit {A} (code : option Z) : py A := raise (SystemExit code).

(** ** click commands *)

Record Command := {
  name : string;
  callback : kwargs -> py unit
}.

(** [@click.command()] names the command after the function, with [_]
    turned into [-]. *)
Fixpoint dashed (s : string) : string :=
  match s with
  | EmptyString => EmptyString
  | String c s' =>
      String (if Ascii.eqb c "_"%char then "-"%char else c) (dashed s')
  end.

Definition click_command (function_name : string) (f : kwargs -> py unit)
  : Command :=
  {| name := dashed function_name; callback := f |}.

(** [Group.add_command(cmd)]: [self.commands[cmd.name] = cmd] *)
Definition add_command (cmd : Command) (commands : gmap string Command)
  : gmap string Command :=
  <[name cmd := cmd]> commands.

(** ** The callbacks defined in [Hop.add_commands] *)

Definition new : Command :=
  click_command "new" (fun kw =>
    repo_call (Repo.init (package_name kw) (devel kw))).

Definition prepare : Command :=
  click_command "prepare" (fun kw =>
    assign_command "prepare" ;;
    repo_call (Repo.prepare_release (level kw) (message kw)) ;;
    sys_exit None).

Definition apply : Command :=
  click_command "apply" (fun kw =>
    assign_command "apply" ;;
    repo_call Repo.apply_release).

Definition undo : Command :=
  click_command "undo" (fun kw =>
    assign_command "undo" ;;
    repo_call (Repo.undo_release (database_only kw))).

Definition upgrade : Command :=
  click_command "upgrade" (fun kw =>
    assign_command "upgrade_prod" ;;
    repo_call Repo.upgrade_prod).

Definition restore : Command :=
  click_command "restore" (fun kw =>
    repo_call (Repo.restore (release_arg kw))).

Definition release : Command :=
  click_command "release" (fun kw =>
    repo_call (Repo.commit_release (push kw))).

Definition sync_package : Command :=
  click_command "sync_package" (fun kw =>
    repo_call Repo.sync_package).

Definition cmds : gmap string Command :=
  list_to_map
    [("new", new); ("prepare", prepare); ("apply", apply); ("undo", undo);
     ("release", release); ("sync-package", sync_package);
     ("upgrade", upgrade); ("restore", restore)].

(** The loop [for cmd in self.__available_cmds:
    click_main.add_command(cmds[cmd])]. *)
Fixpoint add_commands_loop (l : list string) (click_main : gmap string Command)
  : result (gmap string Command) :=
  match l with
  | [] => Ret click_main
  | cmd :: l' =>
      match cmds !! cmd with
      | Some c => add_commands_loop l' (add_command c click_main)
      | None => Raise (KeyError cmd)
      end
  end.

(** [Hop.add_commands]: [self.__available_cmds] is found on the class. *)
Definition add_commands (self : Hop) (K : HopClass)
  (click_main : gmap string Command) : result (gmap string Command) :=
  add_commands_loop (available_cmds K) click_main.

(** ** The group callback [main] *)

Definition nl : string := String (Ascii.ascii_of_nat 10) EmptyString.

(** [half_orm.utils.Color.bold] belongs to another package and only
    decorates its argument for the terminal; the decoration is left out. *)
Definition Color_bold (text : string) : string := text.

Definition not_in_repo_message : string :=
  nl ++ "Not in a hop repository." ++ nl ++
  "Try " ++ Color_bold "hop new [--devel] <package name>" ++
  " or change directory." ++ nl.

Definition is_None {A} (o : option A) : bool :=
  match o with None => true | Some _ => false end.

Definition is_not (o : option string) (s : string) : bool :=
  match o with
  | None => true
  | Some s' => negb (String.eqb s' s)
  end.

Definition main (invoked_subcommand : option string) : py unit :=
  fun p =>
    if repo_checked (hop p) && is_None invoked_subcommand then
      echo (state (hop p)) p
    else if negb (repo_checked (hop p)) && is_not invoked_subcommand "new" then
      (echo (state (hop p)) ;; echo not_in_repo_message) p
    else
      ret tt p.

(** ** Running the program *)

(** click's group: with no subcommand the group callback runs alone
    ([invoke_without_command=True]); otherwise the name is resolved first
    (an unknown name is a usage error and nothing runs), then the group
    callback runs, then the subcommand's. *)
Definition invoke (commands : gmap string Command)
  (args : option (string * kwargs)) : py unit :=
  match args with
  | None => main None
  | Some (cmd_name, kw) =>
      match commands !! cmd_name with
      | None => raise (UsageError ("No such command " ++ cmd_name))
      | Some cmd => main (Some cmd_name) ;; callback cmd kw
      end
  end.

(** The exit status of the process: 0 when the program runs to its end,
    the code of [SystemExit] (0 for [sys.exit()]), 2 for a usage error,
    1 for any other exception. *)
Definition exit_status (r : result unit) : Z :=
  match r with
  | Ret _ => 0
  | Raise (SystemExit None) => 0
  | Raise (SystemExit (Some n)) => n
  | Raise (UsageError _) => 2
  | Raise _ => 1
  end.

(** The module body: [hop = Hop()], then [hop.add_commands(main)] on the
    empty group. *)
Definition module_body (r : Repo.t)
  : result (gmap string Command) * Process :=
  let '(h, K) := Hop__init__ r Hop_class_body in
  (add_commands h K ∅,
   {| Hop_class := K; hop := h; stdout := []; repo_calls := [] |}).

(** One run of [hop]: import the module, then call [main()] on the command
    line [args]. *)
Definition hop_cli (r : Repo.t) (args : option (string * kwargs))
  : result unit * Process :=
  match module_body r with
  | (Ret commands, p) => invoke commands args p
  | (Raise e, p) => (Raise e, p)
  end.

(** The subcommands a run offers: the names registered on the group. *)
Definition offered (r : Repo.t) : option (gset string) :=
  match module_body r with
  | (Ret commands, _) => Some (dom commands)
  | (Raise _, _) => None
  end.

(** ** Reference values used in the statements *)

(** The four lists, by the three attributes read from the repo. *)
Definition classified (r : Repo.t) : list string :=
  match Repo.checked r, Repo.devel r, Repo.production r with
  | false, _, _ => ["new"]
  | true, false, _ => ["sync-package"]
  | true, true, true => ["upgrade"; "restore"]
  | true, true, false => ["prepare"; "apply"; "release"; "undo"]
  end.

(** The state in which a callback runs when the module has been loaded for
    the repo [r]. *)
Definition loaded (r : Repo.t) : Process := (module_body r).2.

(** The value of the [command] property once the callback of [c] has run. *)
Definition command_after (c : Command) (kw : kwargs) (p : Process)
  : option string :=
  let p' := (callback c kw p).2 in
  command (hop p') (Hop_class p').

(** A classification without effect would hand the class object back as it
    received it. *)
Definition mutates_nothing (r : Repo.t) (K : HopClass) : Prop :=
  (Hop__init__ r K).2 = K.

(** ** The engine's own check of legality *)

(** hop.py decides which subcommands exist; whether an operation that is
    called without going through them is refused is decided in
    [half_orm_dev.repo], which hop.py only calls. The definitions of this
    part follow the spec for that side. *)

Module Mode.

(** Modelled from the spec: the mode of a repository state (section 3);
    [half_orm_dev.repo] is not part of hop.py. *)
Inductive t := SyncOnly | Development.

End Mode.

Module Environment.

(** Modelled from the spec: the environment of a repository state
    (section 3); [half_orm_dev.repo] is not part of hop.py. *)
Inductive t := Development | Production.

End Environment.

(** Modelled from the spec: the repository state of section 3, with the
    three fields that section 4.1 reads ([last_applied_release] plays no
    part in it); [half_orm_dev.repo] is not part of hop.py. *)
Record RepositoryState := {
  initialized : bool;
  mode : Mode.t;
  environment : Environment.t
}.

(** Modelled from the spec: [classify() -> RepositoryState] of section 4.1,
    a function of what is observed of the repo, which is missing from the
    source as a function of its own: [checked] tells whether the repository
    is initialized, [devel] its mode, [production] its environment. *)
Definition classify (r : Repo.t) : RepositoryState :=
  {| initialized := Repo.checked r;
     mode := if Repo.devel r then Mode.Development else Mode.SyncOnly;
     environment := if Repo.production r then Environment.Production
                    else Environment.Development |}.

(** Modelled from the spec: the mapping of section 4.1 from the classified
    state to the operations that are legal in it; the engine that holds it
    ([half_orm_dev.repo]) is not part of hop.py. *)
Definition legal_operations (st : RepositoryState) : list string :=
  match initialized st, mode st, environment st with
  | false, _, _ => ["new"]
  | true, Mode.SyncOnly, _ => ["sync-package"]
  | true, Mode.Development, Environment.Production => ["upgrade"; "restore"]
  | true, Mode.Development, Environment.Development =>
      ["prepare"; "apply"; "release"; "undo"]
  end.

(** Modelled from the spec: the typed error of section 9 for an operation
    invoked outside the legal set of the state; the engine that raises it
    ([half_orm_dev.repo]) is not part of hop.py, and the spec gives the
    error no name. *)
Inductive EngineError :=
| OperationNotLegal (operation : string) (st : RepositoryState).

(** Modelled from the spec: an operation invoked on the engine, not through
    the menu (section 9); the engine ([half_orm_dev.repo]) is not part of
    hop.py. The engine itself looks the operation up in the legal set of
    the classified state: outside the set the invocation fails with the
    typed error and nothing is executed; inside it the operation runs as
    its callback of hop.py runs it. *)
Definition engine_invoke (operation : string) (kw : kwargs) (p : Process)
  : (EngineError + result unit) * Process :=
  let st := classify (repo (hop p)) in
  if bool_decide (operation ∈ legal_operations st) then
    match cmds !! operation with
    | Some c => (inr (callback c kw p).1, (callback c kw p).2)
    | None => (inl (OperationNotLegal operation st), p)
    end
  else
    (inl (OperationNotLegal operation st), p).

(** Sample repos and arguments. *)
Definition returns (c : Repo.call) : Repo.outcome := Repo.Returned.

Definition raises (c : Repo.call) : Repo.outcome := Repo.Raised "failed".

Definition outside_repo : Repo.t :=
  {| Repo.checked := false; Repo.devel := false; Repo.production := false;
     Repo.state := "no repo"; Repo.run := returns |}.

Definition sync_repo : Repo.t :=
  {| Repo.checked := true; Repo.devel := false; Repo.production := false;
     Repo.state := "sync-only repo"; Repo.run := returns |}.

Definition devel_repo : Repo.t :=
  {| Repo.checked := true; Repo.devel := true; Repo.production := false;
     Repo.state := "devel repo"; Repo.run := returns |}.

Definition production_repo : Repo.t :=
  {| Repo.checked := true; Repo.devel := true; Repo.production := true;
     Repo.state := "production repo"; Repo.run := returns |}.

Definition failing_devel_repo : Repo.t :=
  {| Repo.checked := true; Repo.devel := true; Repo.production := false;
     Repo.state := "devel repo"; Repo.run := raises |}.

Definition no_kwargs : kwargs :=
  {| package_name := ""; devel := false; level := None; message := None;
     database_only := false; release_arg := ""; push := false |}.

(** A class whose list holds a name that [cmds] does not have. *)
Definition stray_class : HopClass :=
  {| available_cmds := ["new"; "status"; "apply"]; class_command := None |}.

Definition release_kwargs : kwargs :=
  {| package_name := "pkg"; devel := true; level := Some Repo.minor;
     message := Some "msg"; database_only := true; release_arg := "1.2.3";
     push := true |}.

(** The call of a registered subcommand, by its name. *)
Definition call_of (key : string) (kw : kwargs) : list Repo.call :=
  if String.eqb key "new" then [Repo.init (package_name kw) (devel kw)]
  else if String.eqb key "sync-package" then [Repo.sync_package]
  else if String.eqb key "upgrade" then [Repo.upgrade_prod]
  else if String.eqb key "restore" then [Repo.restore (release_arg kw)]
  else if String.eqb key "prepare" then
    [Repo.prepare_release (level kw) (message kw)]
  else if String.eqb key "apply" then [Repo.apply_release]
  else if String.eqb key "release" then [Repo.commit_release (push kw)]
  else if String.eqb key "undo" then [Repo.undo_release (database_only kw)]
  else [].

(** ** Proof steps shared by the lemmas on callbacks *)

(** Unfold a callback down to the calls it makes. *)
Ltac run_callback :=
  unfold callback, new, prepare, apply, undo, upgrade, restore, release,
    sync_package, click_command, bind, assign_command, repo_call, sys_exit,
    raise; simpl.

(** One case per entry of [cmds], from a lookup [H : cmds !! key = Some c]. *)
Ltac each_command H :=
  unfold cmds in H; apply elem_of_list_to_map_2 in H;
  repeat (apply elem_of_cons in H as [H | H];
          [injection H as -> -> |]);
  [.. | by apply elem_of_nil in H].

(** * Properties *)

(** ** Lookups in the [cmds] dictionary *)

Lemma cmds_new : cmds !! "new" = Some new.
Proof. reflexivity. Qed.

Lemma cmds_prepare : cmds !! "prepare" = Some prepare.
Proof. reflexivity. Qed.

Lemma cmds_apply : cmds !! "apply" = Some apply.
Proof. reflexivity. Qed.

Lemma cmds_undo : cmds !! "undo" = Some undo.
Proof. reflexivity. Qed.

Lemma cmds_release : cmds !! "release" = Some release.
Proof. reflexivity. Qed.

Lemma cmds_sync_package : cmds !! "sync-package" = Some sync_package.
Proof. reflexivity. Qed.

Lemma cmds_upgrade : cmds !! "upgrade" = Some upgrade.
Proof. reflexivity. Qed.

Lemma cmds_restore : cmds !! "restore" = Some restore.
Proof. reflexivity. Qed.

(** Every key of [cmds] is the click name of the command stored under it. *)
Lemma cmds_name (key : string) (c : Command) :
  cmds !! key = Some c -> name c = key.
Proof.
  unfold cmds. intros H.
  apply elem_of_list_to_map_2 in H.
  repeat (apply elem_of_cons in H as [H | H]; [by inversion H |]).
  by apply elem_of_nil in H.
Qed.

(** ** What [Hop.__init__] leaves in the class *)

Lemma Hop__init__class (r : Repo.t) (K : HopClass) :
  (Hop__init__ r K).2 = set_available_cmds (classified r) K.
Proof.
  unfold Hop__init__, classified, repo_checked; simpl.
  by destruct (Repo.checked r), (Repo.devel r), (Repo.production r).
Qed.

Lemma Hop__init__instance (r : Repo.t) (K : HopClass) :
  (Hop__init__ r K).1 = {| repo := r; instance_command := None |}.
Proof.
  unfold Hop__init__, repo_checked; simpl.
  by destruct (Repo.checked r), (Repo.devel r), (Repo.production r).
Qed.

Lemma module_body_unfold (r : Repo.t) :
  module_body r =
    (add_commands_loop (classified r) ∅,
     {| Hop_class := set_available_cmds (classified r) Hop_class_body;
        hop := {| repo := r; instance_command := None |};
        stdout := []; repo_calls := [] |}).
Proof.
  unfold module_body.
  pose proof (Hop__init__class r Hop_class_body) as HK.
  pose proof (Hop__init__instance r Hop_class_body) as Hh.
  destruct (Hop__init__ r Hop_class_body) as [h K]; simpl in *.
  by subst.
Qed.

(** The group after the module body, in each of the four cases. *)
Lemma registered_new :
  add_commands_loop ["new"] ∅ = Ret (add_command new ∅).
Proof. reflexivity. Qed.

Lemma registered_sync :
  add_commands_loop ["sync-package"] ∅ = Ret (add_command sync_package ∅).
Proof. reflexivity. Qed.

Lemma registered_production :
  add_commands_loop ["upgrade"; "restore"] ∅
  = Ret (add_command restore (add_command upgrade ∅)).
Proof. reflexivity. Qed.

Lemma registered_development :
  add_commands_loop ["prepare"; "apply"; "release"; "undo"] ∅
  = Ret (add_command undo (add_command release
          (add_command apply (add_command prepare ∅)))).
Proof. reflexivity. Qed.

Lemma offered_classified (r : Repo.t) :
  offered r = Some (list_to_set (classified r)).
Proof.
  unfold offered. rewrite module_body_unfold. unfold classified.
  destruct (Repo.checked r), (Repo.devel r), (Repo.production r);
    first [ rewrite registered_new | rewrite registered_sync
          | rewrite registered_production | rewrite registered_development ];
    f_equal; by vm_compute.
Qed.

(** ** The commands offered in each state (C1, C2, C3, C8) *)

(** C1. A checked repo in development mode that is not a production one:
    the class holds exactly prepare, apply, release and undo, these four
    names are the ones registered on the group, and none of new,
    sync-package, upgrade and restore is. *)
Theorem development_offers_authoring (r : Repo.t) (K : HopClass) :
  Repo.checked r = true -> Repo.devel r = true -> Repo.production r = false ->
  available_cmds (Hop__init__ r K).2 = ["prepare"; "apply"; "release"; "undo"]
  ∧ ∃ s : gset string,
      offered r = Some s
      ∧ s = {[ "prepare"; "apply"; "release"; "undo" ]}
      ∧ ("new" ∉ s) ∧ ("sync-package" ∉ s) ∧ ("upgrade" ∉ s) ∧ ("restore" ∉ s).
Proof.
  intros Hc Hd Hp. split.
  - rewrite Hop__init__class. unfold classified. by rewrite Hc, Hd, Hp.
  - eexists. split; [apply offered_classified |].
    unfold classified. rewrite Hc, Hd, Hp.
    repeat split; by vm_compute.
Qed.

(** C2. A checked repo in development mode on a production environment:
    exactly upgrade and restore are offered, and no authoring command. *)
Theorem production_offers_upgrade_restore (r : Repo.t) (K : HopClass) :
  Repo.checked r = true -> Repo.devel r = true -> Repo.production r = true ->
  available_cmds (Hop__init__ r K).2 = ["upgrade"; "restore"]
  ∧ ∃ s : gset string,
      offered r = Some s
      ∧ s = {[ "upgrade"; "restore" ]}
      ∧ ("prepare" ∉ s) ∧ ("apply" ∉ s) ∧ ("release" ∉ s) ∧ ("undo" ∉ s).
Proof.
  intros Hc Hd Hp. split.
  - rewrite Hop__init__class. unfold classified. by rewrite Hc, Hd, Hp.
  - eexists. split; [apply offered_classified |].
    unfold classified. rewrite Hc, Hd, Hp.
    repeat split; by vm_compute.
Qed.

(** C3. Outside a repo only new is offered; in a checked repo that is not in
    development mode only sync-package is. *)
Theorem unchecked_offers_new_synconly_offers_sync (r : Repo.t) (K : HopClass) :
  (Repo.checked r = false ->
     available_cmds (Hop__init__ r K).2 = ["new"]
     ∧ offered r = Some {[ "new" ]})
  ∧ (Repo.checked r = true -> Repo.devel r = false ->
     available_cmds (Hop__init__ r K).2 = ["sync-package"]
     ∧ offered r = Some {[ "sync-package" ]}).
Proof.
  split.
  - intros Hc. rewrite Hop__init__class, offered_classified.
    unfold classified. rewrite Hc. split; [done |]. by vm_compute.
  - intros Hc Hd. rewrite Hop__init__class, offered_classified.
    unfold classified. rewrite Hc, Hd. split; [done |]. by vm_compute.
Qed.

(** C8. Whatever the repo and whatever the class held before, after
    [Hop.__init__] the class holds one of the four lists; the list is not
    empty, and new comes with no other command. The registered names are
    the names of that list. *)
Theorem available_cmds_one_of_four (r : Repo.t) (K : HopClass) :
  let l := available_cmds (Hop__init__ r K).2 in
  (l = ["new"] ∨ l = ["sync-package"] ∨ l = ["upgrade"; "restore"]
   ∨ l = ["prepare"; "apply"; "release"; "undo"])
  ∧ l ≠ []
  ∧ ("new" ∈ l -> l = ["new"])
  ∧ offered r = Some (list_to_set l).
Proof.
  simpl. rewrite Hop__init__class, offered_classified. simpl.
  unfold classified.
  destruct (Repo.checked r), (Repo.devel r), (Repo.production r);
    (split; [tauto |]); (split; [done |]); (split; [| done]);
    intros H; try done;
    repeat (apply elem_of_cons in H as [H | H]; [discriminate H |]);
    by apply elem_of_nil in H.
Qed.

Lemma development_offers_authoring_witness :
  (Repo.checked devel_repo = true ∧ Repo.devel devel_repo = true
   ∧ Repo.production devel_repo = false)
  ∧ available_cmds (Hop__init__ devel_repo Hop_class_body).2
    = ["prepare"; "apply"; "release"; "undo"].
Proof.
  split; [by repeat split |].
  apply (development_offers_authoring devel_repo Hop_class_body);
    reflexivity.
Defined.

Lemma production_offers_upgrade_restore_witness :
  (Repo.checked production_repo = true ∧ Repo.devel production_repo = true
   ∧ Repo.production production_repo = true)
  ∧ available_cmds (Hop__init__ production_repo Hop_class_body).2
    = ["upgrade"; "restore"].
Proof.
  split; [by repeat split |].
  apply (production_offers_upgrade_restore production_repo Hop_class_body);
    reflexivity.
Defined.

Lemma unchecked_offers_new_synconly_offers_sync_witness :
  offered outside_repo = Some {[ "new" ]}
  ∧ offered sync_repo = Some {[ "sync-package" ]}.
Proof.
  split.
  - apply (unchecked_offers_new_synconly_offers_sync
             outside_repo Hop_class_body); reflexivity.
  - apply (unchecked_offers_new_synconly_offers_sync
             sync_repo Hop_class_body); reflexivity.
Defined.

(** ** The group built by [add_commands] *)

(** A name is found on the group exactly when the loop went over it, and
    then with the command that [cmds] has for it. *)
Lemma add_commands_loop_lookup (l : list string)
  (g0 g : gmap string Command) (key : string) :
  add_commands_loop l g0 = Ret g ->
  g !! key = if decide (key ∈ l) then cmds !! key else g0 !! key.
Proof.
  revert g0. induction l as [| cmd l IH]; intros g0 Hloop; simpl in Hloop.
  - injection Hloop as <-. by rewrite decide_False by apply not_elem_of_nil.
  - destruct (cmds !! cmd) as [c |] eqn:Hcmd; [| discriminate Hloop].
    pose proof (cmds_name _ _ Hcmd) as Hname.
    rewrite (IH _ Hloop). unfold add_command. rewrite Hname.
    destruct (decide (key ∈ l)) as [Hin | Hnin].
    + by rewrite decide_True by (by apply list_elem_of_further).
    + destruct (decide (key = cmd)) as [-> | Hne].
      * rewrite decide_True by apply list_elem_of_here.
        by rewrite lookup_insert_eq.
      * rewrite lookup_insert_ne by done.
        rewrite decide_False; [done |].
        intros [? | ?]%elem_of_cons; done.
Qed.

(** The loop succeeds on each of the four lists. *)
Lemma add_commands_loop_classified (r : Repo.t) :
  ∃ g, add_commands_loop (classified r) ∅ = Ret g.
Proof.
  unfold classified.
  destruct (Repo.checked r), (Repo.devel r), (Repo.production r);
    eexists; reflexivity.
Qed.

(** [main] is silent when a registered subcommand is invoked. *)
Lemma main_silent (r : Repo.t) (key : string) (p : Process) :
  repo (hop p) = r -> key ∈ classified r -> main (Some key) p = (Ret tt, p).
Proof.
  intros <- Hin. unfold main, classified, repo_checked in *.
  destruct (Repo.checked (repo (hop p))); simpl; [done |].
  apply list_elem_of_singleton in Hin as ->. done.
Qed.

(** Dispatch of a registered name: the callback of its command runs on the
    freshly loaded process. *)
Lemma hop_cli_registered (r : Repo.t) (key : string) (kw : kwargs) :
  key ∈ classified r ->
  ∃ c, cmds !! key = Some c
       ∧ hop_cli r (Some (key, kw)) = callback c kw (loaded r).
Proof.
  intros Hin. unfold hop_cli, loaded. rewrite module_body_unfold.
  destruct (add_commands_loop_classified r) as [g Hg]. rewrite Hg. simpl.
  rewrite (add_commands_loop_lookup _ _ _ key Hg).
  rewrite decide_True by done.
  destruct (cmds !! key) as [c |] eqn:Hc.
  - exists c. split; [done |]. unfold bind.
    by rewrite (main_silent r key).
  - exfalso. revert Hin Hc. unfold classified.
    destruct (Repo.checked r), (Repo.devel r), (Repo.production r);
      intros Hin; repeat (apply elem_of_cons in Hin as [-> | Hin]; [done |]);
      by apply elem_of_nil in Hin.
Qed.

(** Dispatch of any other name: click's usage error, and nothing has run. *)
Lemma hop_cli_unregistered (r : Repo.t) (key : string) (kw : kwargs) :
  key ∉ classified r ->
  hop_cli r (Some (key, kw))
  = (Raise (UsageError ("No such command " ++ key)), loaded r).
Proof.
  intros Hnin. unfold hop_cli, loaded. rewrite module_body_unfold.
  destruct (add_commands_loop_classified r) as [g Hg]. rewrite Hg. simpl.
  rewrite (add_commands_loop_lookup _ _ _ key Hg).
  rewrite decide_False by done. by rewrite lookup_empty.
Qed.

Lemma loaded_unfold (r : Repo.t) :
  loaded r =
    {| Hop_class := set_available_cmds (classified r) Hop_class_body;
       hop := {| repo := r; instance_command := None |};
       stdout := []; repo_calls := [] |}.
Proof. unfold loaded. by rewrite module_body_unfold. Qed.

(** ** What a callback does *)

(** Every callback makes exactly one call on the repo, whatever the state of
    the process it runs in: no callback looks at the list of the class. *)
Lemma callback_calls_repo (key : string) (c : Command) (kw : kwargs)
  (p : Process) :
  cmds !! key = Some c ->
  ∃ call, repo_calls (callback c kw p).2 = (repo_calls p ++ [call])%list.
Proof.
  intros H. each_command H; run_callback;
    match goal with
    | |- context [Repo.run ?r ?c] => exists c; by destruct (Repo.run r c)
    end.
Qed.

(** The exit status after a callback is 0 when its call returned and not 0
    when it raised. *)
Lemma callback_exit_status (key : string) (c : Command) (kw : kwargs)
  (p : Process) :
  cmds !! key = Some c ->
  ∃ call, repo_calls (callback c kw p).2 = (repo_calls p ++ [call])%list
    ∧ (Repo.run (repo (hop p)) call = Repo.Returned ->
       exit_status (callback c kw p).1 = 0)
    ∧ (∀ e, Repo.run (repo (hop p)) call = Repo.Raised e ->
       exit_status (callback c kw p).1 ≠ 0).
Proof.
  intros H. each_command H; run_callback;
    match goal with
    | |- context [Repo.run ?r ?c] =>
        exists c; destruct (Repo.run r c) eqn:Hrun; simpl;
        (split; [done |]); (split; [intros; done | intros; done])
    end.
Qed.

(** ** Legality (C4) *)

(** *** What hop.py does with a name outside the list *)

Example prepare_callback_in_production :
  callback prepare no_kwargs (loaded production_repo)
  = (Raise (SystemExit None),
     {| Hop_class := set_available_cmds ["upgrade"; "restore"] Hop_class_body;
        hop := {| repo := production_repo;
                  instance_command := Some "prepare" |};
        stdout := [];
        repo_calls := [Repo.prepare_release None None] |}).
Proof. reflexivity. Qed.

Example prepare_command_line_in_production :
  hop_cli production_repo (Some ("prepare", no_kwargs))
  = (Raise (UsageError "No such command prepare"), loaded production_repo)
  ∧ repo_calls (loaded production_repo) = [].
Proof. split; reflexivity. Qed.

(** The legal set of the spec is the list that [Hop.__init__] stores. *)
Lemma legal_operations_classified (r : Repo.t) :
  legal_operations (classify r) = classified r.
Proof.
  unfold legal_operations, classify, classified. simpl.
  by destruct (Repo.checked r), (Repo.devel r), (Repo.production r).
Qed.

(** A legal operation is executed: the engine runs the callback that
    [cmds] has for it. *)
Lemma engine_invoke_legal (r : Repo.t) (operation : string) (kw : kwargs) :
  operation ∈ legal_operations (classify r) ->
  ∃ c, cmds !! operation = Some c
       ∧ engine_invoke operation kw (loaded r)
         = (inr (callback c kw (loaded r)).1, (callback c kw (loaded r)).2).
Proof.
  intros Hin. unfold engine_invoke.
  replace (repo (hop (loaded r))) with r by (by rewrite loaded_unfold).
  rewrite bool_decide_true by done.
  rewrite legal_operations_classified in Hin.
  destruct (hop_cli_registered r operation kw Hin) as (c & Hc & _).
  exists c. by rewrite Hc.
Qed.

(** On the side of hop.py a name outside the list of the state is not
    registered on the group: the command line ends with click's usage
    error, exit status 2, before the group callback or any repo method
    runs. The callbacks themselves do not look at the state: the one stored
    under that name in [cmds], when it is called, makes its call on the
    repo. *)
Lemma illegal_names_are_not_registered (r : Repo.t) (key : string)
  (kw : kwargs) :
  key ∉ available_cmds (Hop_class (loaded r)) ->
  (∃ msg, hop_cli r (Some (key, kw)) = (Raise (UsageError msg), loaded r))
  ∧ exit_status (hop_cli r (Some (key, kw))).1 = 2
  ∧ repo_calls (hop_cli r (Some (key, kw))).2 = []
  ∧ stdout (hop_cli r (Some (key, kw))).2 = []
  ∧ ∀ c, cmds !! key = Some c ->
         ∃ call, repo_calls (callback c kw (loaded r)).2 = [call].
Proof.
  intros Hnin. rewrite loaded_unfold in Hnin. simpl in Hnin.
  rewrite (hop_cli_unregistered r key kw Hnin). simpl.
  split; [by eexists |]. split; [done |].
  rewrite loaded_unfold. simpl. split; [done |]. split; [done |].
  intros c Hc. destruct (callback_calls_repo key c kw
    {| Hop_class := set_available_cmds (classified r) Hop_class_body;
       hop := {| repo := r; instance_command := None |};
       stdout := []; repo_calls := [] |} Hc) as [call Hcall].
  by exists call.
Qed.

(** *** The check of the engine *)



Example engine_upgrade_in_production :
  engine_invoke "upgrade" no_kwargs (loaded production_repo)
  = (inr (Ret tt),
     {| Hop_class := set_available_cmds ["upgrade"; "restore"] Hop_class_body;
        hop := {| repo := production_repo;
                  instance_command := Some "upgrade_prod" |};
        stdout := [];
        repo_calls := [Repo.upgrade_prod] |}).
Proof. reflexivity. Qed.

(** ** Classification and the class object (C5) *)

(** C5, the claim on the code: outside a repo, [Hop.__init__] replaces the
    empty list of the class body by the list of new. *)
Lemma init_writes_the_class :
  ¬ mutates_nothing outside_repo Hop_class_body.
Proof. unfold mutates_nothing. vm_compute. discriminate. Qed.

(** C5, amended. The list depends on the three attributes [checked],
    [devel] and [production] alone: two repos that agree on them get the
    same list and the same registered names, whatever the class held. The
    list is stored in the class: [Hop.__init__] overwrites
    [Hop.__available_cmds] (and leaves [Hop.__command]), so after a second
    [Hop()] the first instance registers the commands of the second. *)
Theorem classification_deterministic_stored_in_class (r1 r2 : Repo.t)
  (K1 K2 : HopClass) :
  Repo.checked r1 = Repo.checked r2 ->
  Repo.devel r1 = Repo.devel r2 ->
  Repo.production r1 = Repo.production r2 ->
  available_cmds (Hop__init__ r1 K1).2 = available_cmds (Hop__init__ r2 K2).2
  ∧ offered r1 = offered r2
  ∧ class_command (Hop__init__ r1 K1).2 = class_command K1
  ∧ ∀ (r : Repo.t) (K : HopClass),
      let first := Hop__init__ r K in
      let second := Hop__init__ r1 first.2 in
      available_cmds second.2 = available_cmds (Hop__init__ r1 K1).2
      ∧ add_commands first.1 second.2 ∅
        = add_commands second.1 second.2 ∅.
Proof.
  intros Hc Hd Hp.
  assert (Hcl : classified r1 = classified r2).
  { unfold classified. by rewrite Hc, Hd, Hp. }
  rewrite !Hop__init__class, !offered_classified, Hcl. simpl.
  repeat split; try done.
  rewrite !Hop__init__class. simpl. by rewrite Hcl.
Qed.

Lemma classification_deterministic_stored_in_class_witness :
  available_cmds (Hop__init__ devel_repo Hop_class_body).2
  = available_cmds
      (Hop__init__ failing_devel_repo
         (Hop__init__ outside_repo Hop_class_body).2).2.
Proof.
  apply (classification_deterministic_stored_in_class
           devel_repo failing_devel_repo Hop_class_body
           (Hop__init__ outside_repo Hop_class_body).2); reflexivity.
Defined.

(** ** The status line (C6) *)

(** C6. With no subcommand the group callback runs alone: it prints the
    state that the repo reports, followed outside a repo by the hint to run
    hop new; no repo method is called and the program runs to its end. *)
Theorem status_line_without_subcommand (r : Repo.t) :
  (hop_cli r None).1 = Ret tt
  ∧ repo_calls (hop_cli r None).2 = []
  ∧ stdout (hop_cli r None).2
    = if Repo.checked r then [Repo.state r]
      else [Repo.state r; not_in_repo_message].
Proof.
  unfold hop_cli. rewrite module_body_unfold.
  destruct (add_commands_loop_classified r) as [g ->].
  unfold invoke, main, repo_checked, state, bind, echo, ret. simpl.
  by destruct (Repo.checked r).
Qed.

Example status_line_outside_repo :
  hop_cli outside_repo None
  = (Ret tt,
     {| Hop_class := set_available_cmds ["new"] Hop_class_body;
        hop := {| repo := outside_repo; instance_command := None |};
        stdout := ["no repo"; not_in_repo_message];
        repo_calls := [] |}).
Proof. reflexivity. Qed.

Example status_line_in_production :
  stdout (hop_cli production_repo None).2 = ["production repo"].
Proof. reflexivity. Qed.

(** ** Exit status (C7) *)

(** C7. A subcommand of the list of the state makes one call on the repo;
    the exit status of the process is 0 when that call returns and is not 0
    when it raises. *)
Theorem exit_status_follows_repo_outcome (r : Repo.t) (key : string)
  (kw : kwargs) :
  key ∈ available_cmds (Hop_class (loaded r)) ->
  ∃ call,
    repo_calls (hop_cli r (Some (key, kw))).2 = [call]
    ∧ (Repo.run r call = Repo.Returned ->
       exit_status (hop_cli r (Some (key, kw))).1 = 0)
    ∧ (∀ e, Repo.run r call = Repo.Raised e ->
       exit_status (hop_cli r (Some (key, kw))).1 ≠ 0).
Proof.
  intros Hin. rewrite loaded_unfold in Hin. simpl in Hin.
  destruct (hop_cli_registered r key kw Hin) as (c & Hc & ->).
  destruct (callback_exit_status key c kw (loaded r) Hc)
    as (call & Hcalls & Hret & Hraise).
  exists call. rewrite Hcalls.
  rewrite loaded_unfold in *. simpl in *. done.
Qed.

Lemma exit_status_follows_repo_outcome_witness :
  ∃ call,
    repo_calls (hop_cli failing_devel_repo (Some ("apply", no_kwargs))).2
    = [call]
    ∧ (Repo.run failing_devel_repo call = Repo.Returned ->
       exit_status
         (hop_cli failing_devel_repo (Some ("apply", no_kwargs))).1 = 0)
    ∧ (∀ e, Repo.run failing_devel_repo call = Repo.Raised e ->
       exit_status
         (hop_cli failing_devel_repo (Some ("apply", no_kwargs))).1 ≠ 0).
Proof.
  apply (exit_status_follows_repo_outcome failing_devel_repo "apply"
           no_kwargs).
  vm_compute. apply list_elem_of_further, list_elem_of_here.
Defined.

Example apply_fails_exit_status :
  hop_cli failing_devel_repo (Some ("apply", no_kwargs))
  = (Raise (Error "failed"),
     {| Hop_class :=
          set_available_cmds ["prepare"; "apply"; "release"; "undo"]
            Hop_class_body;
        hop := {| repo := failing_devel_repo;
                  instance_command := Some "apply" |};
        stdout := [];
        repo_calls := [Repo.apply_release] |})
  ∧ exit_status (hop_cli failing_devel_repo (Some ("apply", no_kwargs))).1
    = 1.
Proof. split; reflexivity. Qed.

Example release_succeeds_exit_status :
  exit_status (hop_cli devel_repo (Some ("release", no_kwargs))).1 = 0
  ∧ repo_calls (hop_cli devel_repo (Some ("release", no_kwargs))).2
    = [Repo.commit_release false].
Proof. split; reflexivity. Qed.

(** ** Explicit exit (C9) *)

(** C9. When [prepare_release] returns, the prepare callback ends the
    process right after it with [sys.exit()], exit status 0. The callbacks
    of apply, undo, upgrade, restore, release and sync-package have no
    explicit exit: whatever the repo does they never end with [SystemExit],
    and when their call returns they return to click. *)
Theorem prepare_exits_others_return (p : Process) (kw : kwargs) :
  (Repo.run (repo (hop p)) (Repo.prepare_release (level kw) (message kw))
   = Repo.Returned ->
   (callback prepare kw p).1 = Raise (SystemExit None)
   ∧ exit_status (callback prepare kw p).1 = 0
   ∧ repo_calls (callback prepare kw p).2
     = (repo_calls p ++ [Repo.prepare_release (level kw) (message kw)])%list
   ∧ stdout (callback prepare kw p).2 = stdout p)
  ∧ ∀ c, c ∈ [apply; undo; upgrade; restore; release; sync_package] ->
         (∀ code, (callback c kw p).1 ≠ Raise (SystemExit code))
         ∧ ∃ call,
             repo_calls (callback c kw p).2 = (repo_calls p ++ [call])%list
             ∧ (Repo.run (repo (hop p)) call = Repo.Returned ->
                (callback c kw p).1 = Ret tt).
Proof.
  split.
  - intros Hret. repeat split; run_callback; by rewrite Hret.
  - intros c Hin.
    repeat (apply elem_of_cons in Hin as [-> | Hin];
            [run_callback;
             match goal with
             | |- context [Repo.run ?r ?c] =>
                 split; [by destruct (Repo.run r c) |];
                 exists c; by destruct (Repo.run r c)
             end |]).
    by apply elem_of_nil in Hin.
Qed.

Lemma prepare_exits_others_return_witness :
  (callback prepare no_kwargs (loaded devel_repo)).1
  = Raise (SystemExit None).
Proof.
  apply (prepare_exits_others_return (loaded devel_repo) no_kwargs).
  reflexivity.
Defined.

Example prepare_exits_while_apply_raises :
  let r := {| Repo.checked := true; Repo.devel := true;
              Repo.production := false; Repo.state := "devel repo";
              Repo.run := fun call =>
                match call with
                | Repo.prepare_release _ _ => Repo.Returned
                | _ => Repo.Raised "failed"
                end |} in
  (callback prepare no_kwargs (loaded r)).1 = Raise (SystemExit None)
  ∧ (callback apply no_kwargs (loaded r)).1 = Raise (Error "failed").
Proof. split; reflexivity. Qed.

(** ** The command property (C10) *)

Example upgrade_callback_in_production :
  command_after upgrade no_kwargs (loaded production_repo)
  = Some "upgrade_prod".
Proof. reflexivity. Qed.

(** C10. The callback of upgrade does not leave the name of its
    subcommand in the property: after hop upgrade on a production repo
    [command] holds upgrade_prod, the name of the repo method, where the
    callbacks of prepare, apply and undo leave the name of their own
    subcommand, as the docstring of the property says (the command
    invoked); release, restore and sync-package leave None. *)
Theorem upgrade_stores_method_name :
  let after r key :=
    command (hop (hop_cli r (Some (key, no_kwargs))).2)
      (Hop_class (hop_cli r (Some (key, no_kwargs))).2) in
  after production_repo "upgrade" = Some "upgrade_prod"
  ∧ after production_repo "upgrade" ≠ Some (name upgrade)
  ∧ after devel_repo "prepare" = Some (name prepare)
  ∧ after devel_repo "apply" = Some (name apply)
  ∧ after devel_repo "undo" = Some (name undo)
  ∧ after devel_repo "release" = None
  ∧ after production_repo "restore" = None
  ∧ after sync_repo "sync-package" = None.
Proof. simpl. repeat split; try reflexivity. by vm_compute. Qed.

(** What each callback leaves in the property, for every repo and whether
    its call returns or raises: the assignment comes before the call. *)
Lemma command_after_each_callback (r : Repo.t) (kw : kwargs) :
  command (hop (loaded r)) (Hop_class (loaded r)) = None
  ∧ command_after prepare kw (loaded r) = Some "prepare"
  ∧ command_after apply kw (loaded r) = Some "apply"
  ∧ command_after undo kw (loaded r) = Some "undo"
  ∧ command_after upgrade kw (loaded r) = Some "upgrade_prod"
  ∧ command_after release kw (loaded r) = None
  ∧ command_after restore kw (loaded r) = None
  ∧ command_after sync_package kw (loaded r) = None
  ∧ command_after new kw (loaded r) = None.
Proof.
  rewrite loaded_unfold. unfold command_after, command.
  repeat split; run_callback;
    try match goal with
    | |- context [Repo.run ?r ?c] => by destruct (Repo.run r c)
    end.
Qed.

(** * Further properties of the module *)

(** ** The three shapes of a run *)

Lemma hop_cli_no_subcommand (r : Repo.t) :
  hop_cli r None = main None (loaded r).
Proof.
  unfold hop_cli, loaded. rewrite module_body_unfold.
  by destruct (add_commands_loop_classified r) as [g ->].
Qed.

Lemma available_cmds_loaded (r : Repo.t) :
  available_cmds (Hop_class (loaded r)) = classified r.
Proof. by rewrite loaded_unfold. Qed.

(** What a callback leaves alone: the class object, the repo of [hop] and
    standard output. *)
Lemma callback_frame (key : string) (c : Command) (kw : kwargs)
  (p : Process) :
  cmds !! key = Some c ->
  Hop_class (callback c kw p).2 = Hop_class p
  ∧ repo (hop (callback c kw p).2) = repo (hop p)
  ∧ stdout (callback c kw p).2 = stdout p.
Proof.
  intros H. each_command H; run_callback;
    match goal with
    | |- context [Repo.run ?r ?c] => by destruct (Repo.run r c)
    end.
Qed.

Lemma main_frame (sub : option string) (p : Process) :
  Hop_class (main sub p).2 = Hop_class p
  ∧ hop (main sub p).2 = hop p
  ∧ repo_calls (main sub p).2 = repo_calls p.
Proof.
  unfold main, bind, echo, ret.
  destruct (repo_checked (hop p) && is_None sub); [done |].
  by destruct (negb (repo_checked (hop p)) && is_not sub "new").
Qed.

(** ** Output, and what a run leaves alone *)

(** X1. With a subcommand on the command line, registered or not, hop.py
    itself writes nothing to standard output, whatever the repo and whether the
    repo method returns or raises. The state line and the hint of [main]
    therefore appear only when hop is run without a subcommand: outside a
    repo the only name that reaches [main] is new. *)
Theorem subcommand_prints_nothing (r : Repo.t) (key : string) (kw : kwargs) :
  stdout (hop_cli r (Some (key, kw))).2 = [].
Proof.
  destruct (decide (key ∈ classified r)) as [Hin | Hnin].
  - destruct (hop_cli_registered r key kw Hin) as (c & Hc & ->).
    destruct (callback_frame key c kw (loaded r) Hc) as (_ & _ & ->).
    by rewrite loaded_unfold.
  - rewrite (hop_cli_unregistered r key kw Hnin). by rewrite loaded_unfold.
Qed.

(** X2. No run writes the class or replaces the repo: after any command
    line the list of the class is the one [Hop.__init__] stored and [hop]
    still holds the same repo. The [command] attribute, unlike the list, is
    written on the instance: a [Hop] built afterwards from the same class
    reads None. *)
Theorem run_leaves_class_and_repo (r : Repo.t)
  (args : option (string * kwargs)) :
  Hop_class (hop_cli r args).2 = Hop_class (loaded r)
  ∧ repo (hop (hop_cli r args).2) = r
  ∧ ∀ r' : Repo.t,
      let later := Hop__init__ r' (Hop_class (hop_cli r args).2) in
      command later.1 later.2 = None.
Proof.
  assert (Hclass : Hop_class (hop_cli r args).2 = Hop_class (loaded r)
                   ∧ repo (hop (hop_cli r args).2) = r).
  { destruct args as [[key kw] |].
    - destruct (decide (key ∈ classified r)) as [Hin | Hnin].
      + destruct (hop_cli_registered r key kw Hin) as (c & Hc & ->).
        destruct (callback_frame key c kw (loaded r) Hc) as (-> & -> & _).
        by rewrite loaded_unfold.
      + rewrite (hop_cli_unregistered r key kw Hnin).
        by rewrite loaded_unfold.
    - rewrite hop_cli_no_subcommand.
      destruct (main_frame None (loaded r)) as (-> & -> & _).
      by rewrite loaded_unfold. }
  destruct Hclass as [Hclass Hrepo]. repeat split; [done | done |].
  intros r'. simpl. rewrite Hclass, Hop__init__class, Hop__init__instance.
  by rewrite loaded_unfold.
Qed.

(** ** The call made for each subcommand *)

Lemma hop_cli_command (r : Repo.t) (key : string) (c : Command)
  (kw : kwargs) :
  key ∈ classified r -> cmds !! key = Some c ->
  hop_cli r (Some (key, kw)) = callback c kw (loaded r).
Proof.
  intros Hin Hc.
  destruct (hop_cli_registered r key kw Hin) as (c' & Hc' & ->).
  congruence.
Qed.

Ltac one_call :=
  rewrite loaded_unfold; run_callback;
  match goal with
  | |- context [Repo.run ?r ?c] => by destruct (Repo.run r c)
  end.

(** X3. Each subcommand hands its own arguments to one method of the repo
    and makes no other call: new passes the package name and the devel
    flag to init, sync-package calls sync_package, upgrade calls
    upgrade_prod, restore passes the release to restore, prepare passes the
    level and the message to prepare_release, apply calls apply_release,
    release passes the push flag to commit_release, undo passes the
    database-only flag to undo_release. *)
Theorem subcommand_forwards_arguments (r : Repo.t) (kw : kwargs) :
  let calls key := repo_calls (hop_cli r (Some (key, kw))).2 in
  (Repo.checked r = false ->
     calls "new" = [Repo.init (package_name kw) (devel kw)])
  ∧ (Repo.checked r = true -> Repo.devel r = false ->
     calls "sync-package" = [Repo.sync_package])
  ∧ (Repo.checked r = true -> Repo.devel r = true ->
     Repo.production r = true ->
     calls "upgrade" = [Repo.upgrade_prod]
     ∧ calls "restore" = [Repo.restore (release_arg kw)])
  ∧ (Repo.checked r = true -> Repo.devel r = true ->
     Repo.production r = false ->
     calls "prepare" = [Repo.prepare_release (level kw) (message kw)]
     ∧ calls "apply" = [Repo.apply_release]
     ∧ calls "release" = [Repo.commit_release (push kw)]
     ∧ calls "undo" = [Repo.undo_release (database_only kw)]).
Proof.
  simpl. repeat split; intros;
    match goal with
    | |- context [hop_cli r (Some (?key, kw))] =>
        assert (Hin : key ∈ classified r)
          by (unfold classified;
              repeat match goal with H : _ = _ |- _ => rewrite H end;
              repeat constructor)
    end.
  - rewrite (hop_cli_command r _ new kw Hin cmds_new). one_call.
  - rewrite (hop_cli_command r _ sync_package kw Hin cmds_sync_package).
    one_call.
  - rewrite (hop_cli_command r _ upgrade kw Hin cmds_upgrade). one_call.
  - rewrite (hop_cli_command r _ restore kw Hin cmds_restore). one_call.
  - rewrite (hop_cli_command r _ prepare kw Hin cmds_prepare). one_call.
  - rewrite (hop_cli_command r _ apply kw Hin cmds_apply). one_call.
  - rewrite (hop_cli_command r _ release kw Hin cmds_release). one_call.
  - rewrite (hop_cli_command r _ undo kw Hin cmds_undo). one_call.
Qed.

Lemma subcommand_forwards_arguments_witness :
  repo_calls (hop_cli devel_repo (Some ("release", release_kwargs))).2
  = [Repo.commit_release true]
  ∧ repo_calls (hop_cli devel_repo (Some ("undo", release_kwargs))).2
    = [Repo.undo_release true]
  ∧ repo_calls (hop_cli outside_repo (Some ("new", release_kwargs))).2
    = [Repo.init "pkg" true].
Proof.
  destruct (subcommand_forwards_arguments devel_repo release_kwargs)
    as (_ & _ & _ & Hdev).
  destruct (Hdev eq_refl eq_refl eq_refl) as (_ & _ & Hrelease & Hundo).
  destruct (subcommand_forwards_arguments outside_repo release_kwargs)
    as (Hnew & _).
  split; [exact Hrelease |]. split; [exact Hundo |]. exact (Hnew eq_refl).
Defined.

Lemma subcommand_calls_by_state (r : Repo.t) (key : string) (kw : kwargs) :
  key ∈ classified r ->
  repo_calls (hop_cli r (Some (key, kw))).2 = call_of key kw.
Proof.
  intros Hin.
  destruct (hop_cli_registered r key kw Hin) as (c & Hc & ->).
  each_command Hc; one_call.
Qed.

(** ** The calls a state allows *)

Ltac key_cases Hin :=
  repeat (apply elem_of_cons in Hin as [-> | Hin]);
  [.. | by apply elem_of_nil in Hin].

(** X4. Whatever is typed on the command line, a run calls only the
    methods of its state: outside a repo nothing but init; in a repo that
    is not in development mode nothing but sync_package; on production
    nothing but upgrade_prod and restore; in development nothing but
    prepare_release, apply_release, commit_release and undo_release. *)
Theorem calls_allowed_by_state (r : Repo.t)
  (args : option (string * kwargs)) (call : Repo.call) :
  call ∈ repo_calls (hop_cli r args).2 ->
  (Repo.checked r = false -> ∃ n d, call = Repo.init n d)
  ∧ (Repo.checked r = true -> Repo.devel r = false ->
     call = Repo.sync_package)
  ∧ (Repo.checked r = true -> Repo.devel r = true ->
     Repo.production r = true ->
     call = Repo.upgrade_prod ∨ ∃ release, call = Repo.restore release)
  ∧ (Repo.checked r = true -> Repo.devel r = true ->
     Repo.production r = false ->
     (∃ l m, call = Repo.prepare_release l m) ∨ call = Repo.apply_release
     ∨ (∃ p, call = Repo.commit_release p)
     ∨ (∃ d, call = Repo.undo_release d)).
Proof.
  destruct args as [[key kw] |].
  - destruct (decide (key ∈ classified r)) as [Hin | Hnin].
    + pose proof (subcommand_calls_by_state r key kw Hin) as Hcalls.
      intros Hcall. revert Hin Hcalls Hcall. unfold classified.
      destruct (Repo.checked r), (Repo.devel r), (Repo.production r);
        intros Hin; key_cases Hin; simpl; intros -> Hcall;
        apply list_elem_of_singleton in Hcall as ->;
        repeat split; intros; try discriminate; eauto 7.
    + rewrite (hop_cli_unregistered r key kw Hnin), loaded_unfold. simpl.
      by intros ?%elem_of_nil.
  - rewrite hop_cli_no_subcommand.
    destruct (main_frame None (loaded r)) as (_ & _ & ->).
    rewrite loaded_unfold. simpl. by intros ?%elem_of_nil.
Qed.

Lemma calls_allowed_by_state_witness :
  Repo.restore "1.2.3"
    ∈ repo_calls
        (hop_cli production_repo (Some ("restore", release_kwargs))).2
  ∧ (Repo.restore "1.2.3" = Repo.upgrade_prod
     ∨ ∃ release, Repo.restore "1.2.3" = Repo.restore release).
Proof.
  assert (Hin : Repo.restore "1.2.3"
                  ∈ repo_calls
                      (hop_cli production_repo
                         (Some ("restore", release_kwargs))).2).
  { vm_compute. apply list_elem_of_here. }
  split; [exact Hin |].
  destruct (calls_allowed_by_state production_repo
              (Some ("restore", release_kwargs)) (Repo.restore "1.2.3") Hin)
    as (_ & _ & Hprod & _).
  exact (Hprod eq_refl eq_refl eq_refl).
Defined.

(** ** Errors of the repo *)

(** X5. No callback catches or rewraps an error: when the method called by
    a registered subcommand raises an error, the run ends with that same
    error; in particular prepare does not reach [sys.exit()]. *)
Theorem repo_error_propagates (r : Repo.t) (key : string) (kw : kwargs) :
  key ∈ available_cmds (Hop_class (loaded r)) ->
  ∃ call,
    repo_calls (hop_cli r (Some (key, kw))).2 = [call]
    ∧ ∀ e, Repo.run r call = Repo.Raised e ->
           (hop_cli r (Some (key, kw))).1 = Raise (Error e).
Proof.
  rewrite available_cmds_loaded. intros Hin.
  destruct (hop_cli_registered r key kw Hin) as (c & Hc & ->).
  rewrite loaded_unfold.
  each_command Hc; run_callback;
    match goal with
    | |- context [Repo.run ?r ?c] =>
        exists c; split; [by destruct (Repo.run r c) |];
        by intros e ->
    end.
Qed.

Lemma repo_error_propagates_witness :
  ∃ call,
    repo_calls (hop_cli failing_devel_repo (Some ("prepare", no_kwargs))).2
    = [call]
    ∧ ∀ e, Repo.run failing_devel_repo call = Repo.Raised e ->
           (hop_cli failing_devel_repo (Some ("prepare", no_kwargs))).1
           = Raise (Error e).
Proof.
  apply (repo_error_propagates failing_devel_repo "prepare" no_kwargs).
  vm_compute. apply list_elem_of_here.
Defined.

(** ** [add_commands] on any group and any list *)

(** The loop succeeds exactly when every name of the list is a key of
    [cmds]. *)
Lemma add_commands_loop_total (l : list string) (g : gmap string Command) :
  (∀ key, key ∈ l -> is_Some (cmds !! key)) ->
  ∃ g', add_commands_loop l g = Ret g'.
Proof.
  revert g. induction l as [| cmd l IH]; intros g Hkeys; simpl.
  - by eexists.
  - destruct (Hkeys cmd (list_elem_of_here _ _)) as [c ->].
    apply IH. intros key Hin. apply Hkeys. by apply list_elem_of_further.
Qed.

Lemma add_commands_loop_keys (l : list string) (g g' : gmap string Command) :
  add_commands_loop l g = Ret g' ->
  ∀ key, key ∈ l -> is_Some (cmds !! key).
Proof.
  revert g. induction l as [| cmd l IH]; intros g Hloop key Hin; simpl in *.
  - by apply elem_of_nil in Hin.
  - destruct (cmds !! cmd) as [c |] eqn:Hcmd; [| discriminate Hloop].
    apply elem_of_cons in Hin as [-> | Hin]; [by rewrite Hcmd |].
    by eapply IH.
Qed.

(** X6. When [add_commands] succeeds on a group, the names on the group
    are those it had plus those of the list, a command registered before
    under another name is still there, and a second [add_commands] leaves
    the same names with the same callbacks. *)
Theorem add_commands_extends_idempotent (self : Hop) (K : HopClass)
  (click_main g : gmap string Command) :
  add_commands self K click_main = Ret g ->
  dom g = dom click_main ∪ list_to_set (available_cmds K)
  ∧ (∀ key, key ∉ available_cmds K -> g !! key = click_main !! key)
  ∧ add_commands self K g = Ret g.
Proof.
  unfold add_commands. intros Hloop.
  pose proof (add_commands_loop_keys _ _ _ Hloop) as Hkeys.
  split; [| split].
  - apply set_eq. intros key.
    rewrite elem_of_union, elem_of_list_to_set, !elem_of_dom.
    rewrite (add_commands_loop_lookup _ _ _ key Hloop).
    destruct (decide (key ∈ available_cmds K)) as [Hin | Hnin].
    + split; [by right | intros _; by apply Hkeys].
    + split; [by left | by intros [? | ?]].
  - intros key Hnin. rewrite (add_commands_loop_lookup _ _ _ key Hloop).
    by rewrite decide_False.
  - destruct (add_commands_loop_total _ g Hkeys) as [g' Hg'].
    rewrite Hg'. f_equal. apply map_eq. intros key.
    rewrite (add_commands_loop_lookup _ _ _ key Hg').
    destruct (decide (key ∈ available_cmds K)) as [Hin | Hnin]; [| done].
    rewrite (add_commands_loop_lookup _ _ _ key Hloop).
    by rewrite decide_True.
Qed.

Lemma add_commands_extends_idempotent_witness :
  let g := add_command restore (add_command upgrade (add_command new ∅)) in
  add_commands (hop (loaded production_repo))
    (Hop_class (loaded production_repo)) (add_command new ∅) = Ret g
  ∧ add_commands (hop (loaded production_repo))
      (Hop_class (loaded production_repo)) g = Ret g.
Proof.
  assert (H : add_commands (hop (loaded production_repo))
                (Hop_class (loaded production_repo)) (add_command new ∅)
              = Ret (add_command restore
                       (add_command upgrade (add_command new ∅)))).
  { reflexivity. }
  split; [exact H |].
  apply (add_commands_extends_idempotent _ _ _ _ H).
Defined.

(** X7. A list with a name that [cmds] does not have makes [add_commands]
    raise KeyError for the first such name, on any group. *)
Theorem add_commands_missing_key (self : Hop) (K : HopClass)
  (click_main : gmap string Command) (before after : list string)
  (key : string) :
  available_cmds K = (before ++ key :: after)%list ->
  (∀ k, k ∈ before -> is_Some (cmds !! k)) ->
  cmds !! key = None ->
  add_commands self K click_main = Raise (KeyError key).
Proof.
  unfold add_commands. intros -> Hbefore Hkey. revert click_main.
  induction before as [| cmd before IH]; intros click_main; simpl.
  - by rewrite Hkey.
  - destruct (Hbefore cmd (list_elem_of_here _ _)) as [c ->].
    apply IH. intros k Hin. apply Hbefore. by apply list_elem_of_further.
Qed.

Lemma add_commands_missing_key_witness :
  add_commands (hop (loaded outside_repo)) stray_class ∅
  = Raise (KeyError "status").
Proof.
  apply (add_commands_missing_key _ stray_class ∅ ["new"] ["apply"]).
  - reflexivity.
  - intros k Hin. apply list_elem_of_singleton in Hin as ->.
    rewrite cmds_new. by eexists.
  - reflexivity.
Defined.

(** X8. Every name that [Hop.__init__] can store is a key of [cmds], and
    the command under that key has the key as its click name (the function
    sync_package gives the command sync-package): the name listed is the
    name to type, and [add_commands] after [Hop.__init__] raises no
    KeyError. *)
Theorem listed_names_are_command_names (r : Repo.t) (K : HopClass)
  (key : string) :
  key ∈ available_cmds (Hop__init__ r K).2 ->
  ∃ c, cmds !! key = Some c ∧ name c = key
       ∧ ∃ g, add_commands (Hop__init__ r K).1 (Hop__init__ r K).2 ∅ = Ret g
              ∧ g !! key = Some c.
Proof.
  rewrite Hop__init__class. unfold add_commands. simpl. intros Hin.
  destruct (add_commands_loop_classified r) as [g Hg].
  destruct (add_commands_loop_keys _ _ _ Hg key Hin) as [c Hc].
  exists c. split; [done |]. split; [by apply cmds_name |].
  exists g. split; [done |].
  rewrite (add_commands_loop_lookup _ _ _ key Hg). by rewrite decide_True.
Qed.

Lemma listed_names_are_command_names_witness :
  ∃ c, cmds !! "sync-package" = Some c ∧ name c = "sync-package"
       ∧ ∃ g, add_commands (Hop__init__ sync_repo Hop_class_body).1
                (Hop__init__ sync_repo Hop_class_body).2 ∅ = Ret g
              ∧ g !! "sync-package" = Some c.
Proof.
  apply (listed_names_are_command_names sync_repo Hop_class_body).
  vm_compute. apply list_elem_of_here.
Defined.
